(** * Rule engine with AST: a shallow embedding of
      [ASSIGNMENT1/rule_Engine_with_AST.cpp]

    The development follows the source file top-down: the [Node] structure,
    the BSON encoder [toBSON] and decoder [parseBSON], the rule combinator
    [combineRules] and the evaluator [evaluateAST], then the rule store
    of [RuleEngineDB] ([saveRule], [loadRule]).

    C++ features are rendered as follows.
    - [std::shared_ptr<Node>] is [option Node]: [None] is [nullptr].
    - [std::unordered_map<std::string, int>] is [gmap string Z]; the only
      operation on a stored [int] is the comparison with 30, which cannot
      overflow, so the 32-bit range plays no role.
    - A C++ exception leaving a function is the [Throws] branch of
      [outcome]; [a && b] and [a || b] evaluate [b] only when needed.
    - A BSON document is the ordered list of its elements. *)

From stdpp Require Import base option list strings gmap.
From Stdlib Require Import ZArith Ascii String.
From Equations Require Import Equations.

Local Open Scope string_scope.
Local Open Scope Z_scope.

(** ** Exceptions and results *)

(** The two exception classes that the modelled functions can let escape:
    [std::out_of_range] from [unordered_map::at], and [bsoncxx::exception]
    from the typed accessors of a BSON element. *)
Inductive exn : Type :=
  | std_out_of_range
  | bsoncxx_exception.

Inductive outcome (A : Type) : Type :=
  | Returns (a : A)
  | Throws (e : exn).

Arguments Returns {A} a.
Arguments Throws {A} e.

Definition bind {A B : Type} (m : outcome A) (k : A -> outcome B) : outcome B :=
  match m with
  | Returns a => k a
  | Throws e => Throws e
  end.

Notation "'let*' x ':=' m 'in' k" := (bind m (fun x => k))
  (at level 10, x name, m at level 100, k at level 200).

(** ** The AST *)

Inductive NodeType : Type :=
  | OPERATOR
  | OPERAND.

#[local] Unset Elimination Schemes.
Inductive Node : Type :=
  | mkNode (type : NodeType) (value : string) (left right : option Node).
#[local] Set Elimination Schemes.

Definition type (n : Node) : NodeType := let (t, _, _, _) := n in t.
Definition value (n : Node) : string := let (_, v, _, _) := n in v.
Definition left (n : Node) : option Node := let (_, _, l, _) := n in l.
Definition right (n : Node) : option Node := let (_, _, _, r) := n in r.

(** [Node(NodeType t, const std::string& val = "")]: both children start
    out as [nullptr]. *)
Definition Node_ctor (t : NodeType) (val : string) : Node :=
  mkNode t val None None.

(** Assignments [n->left = p] and [n->right = p]. *)
Definition set_left (n : Node) (p : option Node) : Node :=
  mkNode (type n) (value n) p (right n).
Definition set_right (n : Node) (p : option Node) : Node :=
  mkNode (type n) (value n) (left n) p.

(** Induction over a tree together with its (possibly absent) children. *)
Section NodeInduction.
Variable P : Node -> Prop.
Hypothesis step : forall t v l r,
  (forall n, l = Some n -> P n) ->
  (forall n, r = Some n -> P n) ->
  P (mkNode t v l r).

Fixpoint Node_child_ind (n : Node) : P n :=
  match n with
  | mkNode t v l r =>
      step t v l r
        (match l as l0 return forall m, l0 = Some m -> P m with
         | Some l' => fun m E =>
             match E in _ = o return
               match o with Some k => P k | None => True end with
             | eq_refl => Node_child_ind l'
             end
         | None => fun m E => match E with end
         end)
        (match r as r0 return forall m, r0 = Some m -> P m with
         | Some r' => fun m E =>
             match E in _ = o return
               match o with Some k => P k | None => True end with
             | eq_refl => Node_child_ind r'
             end
         | None => fun m E => match E with end
         end)
  end.
End NodeInduction.

(** ** Evaluation *)

(** [data.at(key)]: the mapped value, or [std::out_of_range]. *)
Definition at_ (data : gmap string Z) (key : string) : outcome Z :=
  match data !! key with
  | Some x => Returns x
  | None => Throws std_out_of_range
  end.

(** [evaluateAST] on a non-null pointer.  The local [evaluateAST] is the
    recursive call through a child pointer, where the guard
    [if (!node) return false;] applies. *)
Fixpoint evaluateAST_node (n : Node) (data : gmap string Z) : outcome bool :=
  let evaluateAST (p : option Node) : outcome bool :=
    match p with
    | None => Returns false
    | Some m => evaluateAST_node m data
    end in
  match n with
  | mkNode OPERAND v _ _ =>
      if String.eqb v "age > 30" then
        let* x := at_ data "age" in Returns (30 <? x)
      else Returns false
  | mkNode OPERATOR v l r =>
      if String.eqb v "AND" then
        let* a := evaluateAST l in
        if a then evaluateAST r else Returns false
      else if String.eqb v "OR" then
        let* a := evaluateAST l in
        if a then Returns true else evaluateAST r
      else Returns false
  end.

Definition evaluateAST (node : option Node) (data : gmap string Z) : outcome bool :=
  match node with
  | None => Returns false
  | Some n => evaluateAST_node n data
  end.

(** ** Combining rules *)

(** One iteration of the loop of [combineRules]; [root] is the node the
    local variable [root] points to, which the function itself allocated. *)
Definition combineRules_step (root : Node) (rule : option Node) : Node :=
  match left root with
  | None => set_left root rule
  | Some _ =>
      match right root with
      | None => set_right root rule
      | Some _ =>
          let newRoot := Node_ctor OPERATOR "AND" in
          let newRoot := set_left newRoot (Some root) in
          let newRoot := set_right newRoot rule in
          newRoot
      end
  end.

Definition combineRules (rules : list (option Node)) : Node :=
  fold_left combineRules_step rules (Node_ctor OPERATOR "AND").

(** [createRuleAST] ignores its argument and returns a fixed tree. *)
Definition createRuleAST (rule : string) : Node :=
  let root := Node_ctor OPERATOR "AND" in
  let root := set_left root (Some (Node_ctor OPERAND "age > 30")) in
  let root := set_right root (Some (Node_ctor OPERAND "department = 'Sales'")) in
  root.

(** The two leaves of the tree that [createRuleAST] builds, and a leaf with
    a condition from the calls in [main]. *)
Definition age_operand : Node := Node_ctor OPERAND "age > 30".
Definition department_operand : Node := Node_ctor OPERAND "department = 'Sales'".
Definition salary_operand : Node := Node_ctor OPERAND "salary > 50000".

(** ** BSON documents *)

(** The element types that matter here are UTF-8 strings and embedded
    documents; the remaining constructors stand for elements of another
    type, on which [get_utf8] and [get_document] throw. *)
#[local] Unset Elimination Schemes.
Inductive bson_value : Type :=
  | b_utf8 (s : string)
  | b_document (d : list (string * bson_value))
  | b_int32 (i : Z)
  | b_bool (b : bool)
  | b_null.
#[local] Set Elimination Schemes.

Abbreviation document := (list (string * bson_value)).

(** [doc << key << v]: the stream builder appends one element. *)
Definition append (doc : document) (key : string) (v : bson_value) : document :=
  doc ++ [(key, v)].

(** [doc[key]] and [doc.find(key)] on a view: the first element stored
    under [key], or the invalid element / [doc.end()]. *)
Fixpoint doc_find (doc : document) (key : string) : option bson_value :=
  match doc with
  | [] => None
  | (k, v) :: rest => if String.eqb k key then Some v else doc_find rest key
  end.

(** [element::get_utf8()] and [element::get_document()] throw on an invalid
    element and on an element of another type. *)
Definition get_utf8 (e : option bson_value) : outcome string :=
  match e with
  | Some (b_utf8 s) => Returns s
  | _ => Throws bsoncxx_exception
  end.

Definition get_document (e : option bson_value) : outcome document :=
  match e with
  | Some (b_document d) => Returns d
  | _ => Throws bsoncxx_exception
  end.

(** *** Encoding *)

Fixpoint toBSON (node : Node) : document :=
  let doc : document := [] in
  let doc := append doc "type"
    (b_utf8 (match type node with OPERATOR => "operator" | OPERAND => "operand" end)) in
  let doc := append doc "value" (b_utf8 (value node)) in
  let doc :=
    match left node with
    | Some l => append doc "left" (b_document (toBSON l))
    | None => doc
    end in
  let doc :=
    match right node with
    | Some r => append doc "right" (b_document (toBSON r))
    | None => doc
    end in
  doc.

(** *** Decoding *)

(** The recursion of [parseBSON] descends into embedded documents, which are
    reached through [doc_find]; it is justified by the size of a document. *)
Fixpoint bson_size (v : bson_value) : nat :=
  match v with
  | b_document d => S (list_sum (map (fun kv => bson_size (snd kv)) d))
  | _ => 1%nat
  end.

Definition doc_size (d : document) : nat :=
  list_sum (map (fun kv => bson_size (snd kv)) d).

Lemma doc_find_size doc key d :
  doc_find doc key = Some (b_document d) -> (doc_size d < doc_size doc)%nat.
Proof.
  induction doc as [|[k v] rest IH]; simpl; [discriminate|].
  destruct (String.eqb k key).
  - intros [= ->]. unfold doc_size. simpl. lia.
  - intros H. specialize (IH H). unfold doc_size in *. simpl. lia.
Qed.

Lemma get_document_size doc key d :
  get_document (doc_find doc key) = Returns d -> (doc_size d < doc_size doc)%nat.
Proof.
  destruct (doc_find doc key) as [[]|] eqn:E; simpl; try discriminate.
  intros [= ->]. eauto using doc_find_size.
Qed.

(** [doc[key].get_document()], remembering that the embedded document is
    smaller than [doc]. *)
Definition get_document_of (doc : document) (key : string) :
    outcome {d : document | (doc_size d < doc_size doc)%nat} :=
  match get_document (doc_find doc key) as o
        return get_document (doc_find doc key) = o -> _ with
  | Returns d => fun E => Returns (exist _ d (get_document_size doc key d E))
  | Throws e => fun _ => Throws e
  end eq_refl.

Equations parseBSON (doc : document) : outcome Node by wf (doc_size doc) lt :=
  parseBSON doc :=
    let* t := get_utf8 (doc_find doc "type") in
    let type := if String.eqb t "operator" then OPERATOR else OPERAND in
    let* v := get_utf8 (doc_find doc "value") in
    let node := Node_ctor type v in
    let* node :=
      if doc_find doc "left" is Some _ then
        let* d := get_document_of doc "left" in
        let* l := parseBSON (proj1_sig d) in
        Returns (set_left node (Some l))
      else Returns node in
    let* node :=
      if doc_find doc "right" is Some _ then
        let* d := get_document_of doc "right" in
        let* r := parseBSON (proj1_sig d) in
        Returns (set_right node (Some r))
      else Returns node in
    Returns node.

(** What one of the two [if (doc.find(key) != doc.end())] blocks of
    [parseBSON] leaves in the child pointer. *)
Definition parse_child (doc : document) (key : string) : outcome (option Node) :=
  if doc_find doc key is Some _ then
    let* d := get_document (doc_find doc key) in
    let* n := parseBSON d in
    Returns (Some n)
  else Returns None.

(** ** Which nodes an evaluation visits *)

(** The arguments of the calls of [evaluateAST] made while evaluating a
    tree, in call order (the outermost call first).  The right operand of
    [&&] is visited only if the left one returned [true], that of [||]
    only if the left one returned [false]; nothing is visited after a
    throw. *)
Fixpoint evaluateAST_calls_node (n : Node) (data : gmap string Z)
    : list (option Node) :=
  let calls (p : option Node) : list (option Node) :=
    match p with
    | None => [None]
    | Some m => evaluateAST_calls_node m data
    end in
  Some n ::
  match n with
  | mkNode OPERAND _ _ _ => []
  | mkNode OPERATOR v l r =>
      if String.eqb v "AND" then
        calls l ++
        match evaluateAST l data with
        | Returns true => calls r
        | _ => []
        end
      else if String.eqb v "OR" then
        calls l ++
        match evaluateAST l data with
        | Returns false => calls r
        | _ => []
        end
      else []
  end.

Definition evaluateAST_calls (node : option Node) (data : gmap string Z)
    : list (option Node) :=
  match node with
  | None => [None]
  | Some n => evaluateAST_calls_node n data
  end.

(** ** Rules that evaluate *)

(** A rule evaluates on a fact record when its evaluation returns. *)
Definition evaluates (data : gmap string Z) (rule : Node) : Prop :=
  exists b, evaluateAST (Some rule) data = Returns b.

(** The verdict of a rule, with a throw counted as [false]; it is used only
    for rules that evaluate. *)
Definition verdict (data : gmap string Z) (rule : Node) : bool :=
  match evaluateAST (Some rule) data with
  | Returns b => b
  | Throws _ => false
  end.

(** ** The condition grammar of the specification *)

(** The source has no parser for conditions: [evaluateAST] compares the
    whole string with one literal.  The grammar below is the reference
    point for statements about conditions that name a field or that do
    not parse. *)

(** [split_space s]: the characters of [s] before its first space, and
    what follows that space if there is one. *)
Fixpoint split_space (s : string) : string * option string :=
  match s with
  | EmptyString => (EmptyString, None)
  | String c s' =>
      if Ascii.eqb c " "%char then (EmptyString, Some s')
      else let (a, rest) := split_space s' in (String c a, rest)
  end.

Definition comparison_operators : list string :=
  [">"; "<"; ">="; "<="; "=="; "!="].

Definition is_comparison_operator (op : string) : bool :=
  existsb (String.eqb op) comparison_operators.

(** Modelled from the spec: the decomposition of a condition string into
    a field name, a comparison operator and a literal, which the source
    lacks.  A condition is [<field> <op> <literal>] with [<op>] one of
    [>], [<], [>=], [<=], [==], [!=]; field and literal are not empty. *)
Definition parse_condition (s : string) : option (string * string * string) :=
  match split_space s with
  | (field, Some rest) =>
      match split_space rest with
      | (op, Some literal) =>
          if negb (String.eqb field "") && is_comparison_operator op
             && negb (String.eqb literal "")
          then Some (field, op, literal)
          else None
      | (_, None) => None
      end
  | (_, None) => None
  end.

(** ** The truth value of a tree once "age" is known *)

(** A tree read as a boolean formula: [a] is the truth of the one
    recognised condition "age > 30", every other operand is false, an
    absent node is false, and AND, OR are conjunction and disjunction.
    [evaluateAST] is compared with this reading below. *)
Fixpoint truth_node (a : bool) (n : Node) : bool :=
  let truth (p : option Node) : bool :=
    match p with
    | None => false
    | Some m => truth_node a m
    end in
  match n with
  | mkNode OPERAND v _ _ => String.eqb v "age > 30" && a
  | mkNode OPERATOR v l r =>
      if String.eqb v "AND" then truth l && truth r
      else if String.eqb v "OR" then truth l || truth r
      else false
  end.

Definition truth (a : bool) (node : option Node) : bool :=
  match node with
  | None => false
  | Some n => truth_node a n
  end.

(** ** Evaluating rules one after the other *)

(** The rules of a list evaluated from left to right, stopping at the
    first rule that is false or throws. *)
Fixpoint evaluate_in_order (data : gmap string Z) (rules : list Node)
    : outcome bool :=
  match rules with
  | [] => Returns true
  | rule :: rest =>
      let* b := evaluateAST (Some rule) data in
      if b then evaluate_in_order data rest else Returns false
  end.

(** The non-null pointers of a vector of rules, in order. *)
Definition non_null (rules : list (option Node)) : list Node :=
  omap id rules.

(** ** Documents that decode *)

(** A document decodes when its first "type" and "value" elements are
    strings and each of "left" and "right" is absent or holds an embedded
    document that decodes. *)
#[local] Unset Elimination Schemes.
Inductive decodable : document -> Prop :=
  | decodable_node (doc : document) (t v : string) :
      doc_find doc "type" = Some (b_utf8 t) ->
      doc_find doc "value" = Some (b_utf8 v) ->
      (doc_find doc "left" = None \/
       exists d, doc_find doc "left" = Some (b_document d) /\ decodable d) ->
      (doc_find doc "right" = None \/
       exists d, doc_find doc "right" = Some (b_document d) /\ decodable d) ->
      decodable doc.
#[local] Set Elimination Schemes.

(** ** The rule store *)











(** * Properties *)

#[local] Arguments evaluateAST : simpl never.
#[local] Arguments evaluateAST_calls : simpl never.

(** ** Unfolding equations

    [evaluateAST] on a non-null pointer, written with the recursive calls
    the source makes. *)

Lemma evaluateAST_null data : evaluateAST None data = Returns false.
Proof. reflexivity. Qed.

Lemma evaluateAST_operand v l r data :
  evaluateAST (Some (mkNode OPERAND v l r)) data =
  if String.eqb v "age > 30" then
    let* x := at_ data "age" in Returns (30 <? x)
  else Returns false.
Proof. reflexivity. Qed.

Lemma evaluateAST_operator v l r data :
  evaluateAST (Some (mkNode OPERATOR v l r)) data =
  if String.eqb v "AND" then
    let* a := evaluateAST l data in
    if a then evaluateAST r data else Returns false
  else if String.eqb v "OR" then
    let* a := evaluateAST l data in
    if a then Returns true else evaluateAST r data
  else Returns false.
Proof. destruct l, r; reflexivity. Qed.

Lemma evaluateAST_AND l r data :
  evaluateAST (Some (mkNode OPERATOR "AND" l r)) data =
  let* a := evaluateAST l data in
  if a then evaluateAST r data else Returns false.
Proof. apply evaluateAST_operator. Qed.

Lemma evaluateAST_OR l r data :
  evaluateAST (Some (mkNode OPERATOR "OR" l r)) data =
  let* a := evaluateAST l data in
  if a then Returns true else evaluateAST r data.
Proof. apply evaluateAST_operator. Qed.

Lemma evaluateAST_calls_operator v l r data :
  evaluateAST_calls (Some (mkNode OPERATOR v l r)) data =
  Some (mkNode OPERATOR v l r) ::
  if String.eqb v "AND" then
    evaluateAST_calls l data ++
    match evaluateAST l data with
    | Returns true => evaluateAST_calls r data
    | _ => []
    end
  else if String.eqb v "OR" then
    evaluateAST_calls l data ++
    match evaluateAST l data with
    | Returns false => evaluateAST_calls r data
    | _ => []
    end
  else [].
Proof. destruct l, r; reflexivity. Qed.

(** The tree of [createRuleAST] on the first fact record that [main]
    builds, and the recognised operand on its own. *)
Example main_first_evaluation :
  evaluateAST (Some (createRuleAST "age > 30 AND department = 'Sales'"))
    {[ "age" := 35; "salary" := 60000 ]} = Returns false.
Proof. reflexivity. Qed.

Example age_operand_35 : evaluateAST (Some age_operand) {[ "age" := 35 ]} = Returns true.
Proof. reflexivity. Qed.

Example age_operand_20 : evaluateAST (Some age_operand) {[ "age" := 20 ]} = Returns false.
Proof. reflexivity. Qed.

Example main_combined_tree :
  combineRules [Some (createRuleAST "r1"); Some (createRuleAST "r2")] =
  mkNode OPERATOR "AND" (Some (createRuleAST "r1")) (Some (createRuleAST "r2")).
Proof. reflexivity. Qed.

(** An operand other than the one recognised literal is [false]. *)
Lemma evaluateAST_operand_other v l r data :
  v <> "age > 30" ->
  evaluateAST (Some (mkNode OPERAND v l r)) data = Returns false.
Proof.
  intros Hv. rewrite evaluateAST_operand.
  apply String.eqb_neq in Hv. now rewrite Hv.
Qed.

Lemma parse_condition_age : parse_condition "age > 30" = Some ("age", ">", "30").
Proof. reflexivity. Qed.

(** ** Operands *)

(** C10: an operand node whose value is any string other than exactly
    "age > 30" evaluates to false for every fact record.  The result is the
    same constant whatever the record holds, so the record is not
    consulted; the evaluation visits no node besides the operand itself. *)
Theorem operand_other_than_age_is_false (n : Node) (data : gmap string Z) :
  type n = OPERAND ->
  value n <> "age > 30" ->
  evaluateAST (Some n) data = Returns false /\
  evaluateAST_calls (Some n) data = [Some n].
Proof.
  destruct n as [t v l r]; cbn [type value]. intros -> Hv.
  rewrite !evaluateAST_operand_other by assumption. auto.
Qed.

Lemma operand_other_than_age_is_false_witness :
  evaluateAST (Some department_operand) {[ "age" := 35 ]}
    = Returns false /\
  evaluateAST_calls (Some department_operand) {[ "age" := 35 ]}
    = [Some department_operand].
Proof.
  apply (operand_other_than_age_is_false
           department_operand {[ "age" := 35 ]}).
  - reflexivity.
  - simpl. discriminate.
Defined.

(** C4, as stated, fails: the operand "height > 180" names the field
    "height", the fact record lacks it, and evaluation returns false
    without signalling anything. *)
Lemma missing_field_returns_false :
  parse_condition "height > 180" = Some ("height", ">", "180") /\
  (∅ : gmap string Z) !! "height" = None /\
  evaluateAST (Some (Node_ctor OPERAND "height > 180")) ∅ = Returns false /\
  ~ (exists e, evaluateAST (Some (Node_ctor OPERAND "height > 180")) ∅ = Throws e).
Proof.
  repeat split; try reflexivity.
  intros [e He]. discriminate He.
Qed.

(** C4 (amended): for the operand "age > 30", the only condition whose
    field the evaluator looks up, evaluation against a fact record lacking
    "age" signals an error ([std::out_of_range] from [data.at]) rather than
    returning false; an operand with any other condition, such as
    "height > 180", returns false whether or not its field is present. *)
Theorem missing_fact_throws_only_for_age_operand (l r : option Node)
    (data : gmap string Z) :
  (data !! "age" = None ->
   evaluateAST (Some (mkNode OPERAND "age > 30" l r)) data
     = Throws std_out_of_range) /\
  (forall v, v <> "age > 30" ->
   evaluateAST (Some (mkNode OPERAND v l r)) data = Returns false).
Proof.
  split.
  - intros Hage. rewrite evaluateAST_operand. simpl.
    unfold at_. now rewrite Hage.
  - intros v Hv. now apply evaluateAST_operand_other.
Qed.

Lemma missing_fact_throws_only_for_age_operand_witness :
  evaluateAST (Some (mkNode OPERAND "age > 30" None None)) {[ "salary" := 60000 ]}
    = Throws std_out_of_range /\
  evaluateAST (Some (mkNode OPERAND "height > 180" None None))
    {[ "salary" := 60000 ]} = Returns false /\
  evaluateAST (Some (mkNode OPERAND "height > 180" None None))
    {[ "height" := 190 ]} = Returns false.
Proof.
  split; [|split].
  - apply (proj1 (missing_fact_throws_only_for_age_operand None None
                    {[ "salary" := 60000 ]})).
    reflexivity.
  - apply (proj2 (missing_fact_throws_only_for_age_operand None None
                    {[ "salary" := 60000 ]})).
    discriminate.
  - apply (proj2 (missing_fact_throws_only_for_age_operand None None
                    {[ "height" := 190 ]})).
    discriminate.
Defined.

(** C5, as stated, fails: "age above 30" has no comparison operator, so it
    does not parse, yet its operand evaluates to false and nothing is
    signalled. *)
Lemma malformed_condition_returns_false :
  parse_condition "age above 30" = None /\
  evaluateAST (Some (Node_ctor OPERAND "age above 30")) {[ "age" := 35 ]}
    = Returns false /\
  ~ (exists e, evaluateAST (Some (Node_ctor OPERAND "age above 30")) {[ "age" := 35 ]}
                 = Throws e).
Proof.
  repeat split; try reflexivity.
  intros [e He]. discriminate He.
Qed.

(** C5 (amended): an operand node whose condition string does not parse
    under the grammar evaluates to false against every fact record; no
    error is signalled. *)
Theorem unparsable_operand_is_false (n : Node) (data : gmap string Z) :
  type n = OPERAND ->
  parse_condition (value n) = None ->
  evaluateAST (Some n) data = Returns false.
Proof.
  destruct n as [t v l r]; cbn [type value]. intros -> Hparse.
  apply evaluateAST_operand_other. intros ->.
  rewrite parse_condition_age in Hparse. discriminate Hparse.
Qed.

Lemma unparsable_operand_is_false_witness :
  evaluateAST (Some (Node_ctor OPERAND "age above 30")) {[ "age" := 35 ]}
    = Returns false.
Proof.
  apply (unparsable_operand_is_false
           (Node_ctor OPERAND "age above 30") {[ "age" := 35 ]});
    reflexivity.
Defined.

(** ** Operators *)

(** C2: an AND node whose left child evaluates to false returns false, and
    an OR node whose left child evaluates to true returns true, whatever
    the right child is (also when evaluating the right child alone would
    throw); the right child is not among the nodes the evaluation
    visits. *)
Theorem short_circuit (v : string) (l r : option Node) (data : gmap string Z)
    (b : bool) :
  evaluateAST l data = Returns b ->
  (v = "AND" /\ b = false) \/ (v = "OR" /\ b = true) ->
  evaluateAST (Some (mkNode OPERATOR v l r)) data = Returns b /\
  evaluateAST_calls (Some (mkNode OPERATOR v l r)) data =
    Some (mkNode OPERATOR v l r) :: evaluateAST_calls l data.
Proof.
  intros Hl Hcase.
  rewrite evaluateAST_operator, evaluateAST_calls_operator, Hl.
  destruct Hcase as [[-> ->] | [-> ->]]; simpl;
    now rewrite app_nil_r.
Qed.

Lemma short_circuit_witness :
  (evaluateAST (Some age_operand) ∅ = Throws std_out_of_range /\
   evaluateAST (Some (mkNode OPERATOR "AND" (Some salary_operand) (Some age_operand))) ∅
     = Returns false /\
   evaluateAST_calls
     (Some (mkNode OPERATOR "AND" (Some salary_operand) (Some age_operand))) ∅ =
     [Some (mkNode OPERATOR "AND" (Some salary_operand) (Some age_operand));
      Some salary_operand]) /\
  (evaluateAST (Some (mkNode OPERATOR "OR" (Some age_operand) (Some salary_operand)))
     {[ "age" := 35 ]} = Returns true /\
   evaluateAST_calls
     (Some (mkNode OPERATOR "OR" (Some age_operand) (Some salary_operand)))
     {[ "age" := 35 ]} =
     [Some (mkNode OPERATOR "OR" (Some age_operand) (Some salary_operand));
      Some age_operand]).
Proof.
  split.
  - split; [reflexivity|].
    apply (short_circuit "AND" (Some salary_operand) (Some age_operand) ∅ false);
      [reflexivity|].
    left. split; reflexivity.
  - apply (short_circuit "OR" (Some age_operand) (Some salary_operand)
             {[ "age" := 35 ]} true); [reflexivity|].
    right. split; reflexivity.
Defined.

(** C8, as stated, fails: a null node, an operator node with an unknown
    operator, and AND nodes with an absent child all evaluate to false;
    nothing is signalled. *)
Lemma invalid_tree_returns_false :
  evaluateAST None {[ "age" := 35 ]} = Returns false /\
  evaluateAST (Some (mkNode OPERATOR "XOR" (Some age_operand) (Some age_operand)))
    {[ "age" := 35 ]} = Returns false /\
  evaluateAST (Some (mkNode OPERATOR "AND" None (Some age_operand)))
    {[ "age" := 35 ]} = Returns false /\
  evaluateAST (Some (mkNode OPERATOR "AND" (Some age_operand) None))
    {[ "age" := 35 ]} = Returns false.
Proof. repeat split; reflexivity. Qed.

(** C8 (amended): evaluation signals no error for a malformed tree.  A null
    node evaluates to false; an operator node whose value is neither "AND"
    nor "OR" evaluates to false, whatever its children; an absent child of
    an AND or OR node counts as an operand that is false. *)
Theorem malformed_tree_evaluates_absent_as_false (data : gmap string Z) :
  evaluateAST None data = Returns false /\
  (forall v l r, v <> "AND" -> v <> "OR" ->
     evaluateAST (Some (mkNode OPERATOR v l r)) data = Returns false) /\
  (forall r, evaluateAST (Some (mkNode OPERATOR "AND" None r)) data = Returns false) /\
  (forall l, evaluateAST (Some (mkNode OPERATOR "AND" l None)) data =
             bind (evaluateAST l data) (fun _ => Returns false)) /\
  (forall r, evaluateAST (Some (mkNode OPERATOR "OR" None r)) data =
             evaluateAST r data) /\
  (forall l, evaluateAST (Some (mkNode OPERATOR "OR" l None)) data =
             evaluateAST l data).
Proof.
  split; [reflexivity|]. split; [|split; [|split; [|split]]].
  - intros v l r Hand Hor. rewrite evaluateAST_operator.
    apply String.eqb_neq in Hand, Hor. now rewrite Hand, Hor.
  - intros r. now rewrite evaluateAST_AND.
  - intros l. rewrite evaluateAST_AND.
    destruct (evaluateAST l data) as [[]|]; reflexivity.
  - intros r. now rewrite evaluateAST_OR.
  - intros l. rewrite evaluateAST_OR.
    destruct (evaluateAST l data) as [[]|]; reflexivity.
Qed.

Lemma malformed_tree_evaluates_absent_as_false_witness :
  evaluateAST (Some (mkNode OPERATOR "XOR" (Some age_operand) None))
    {[ "age" := 35 ]} = Returns false.
Proof.
  apply (proj1 (proj2 (malformed_tree_evaluates_absent_as_false {[ "age" := 35 ]})));
    discriminate.
Defined.

(** ** The rule combinator *)

(** The root that [combineRules] starts from. *)
Lemma combineRules_nil : combineRules [] = mkNode OPERATOR "AND" None None.
Proof. reflexivity. Qed.

Lemma combineRules_single (R : Node) :
  combineRules [Some R] = mkNode OPERATOR "AND" (Some R) None.
Proof. reflexivity. Qed.

(** Once both children of the root are set, every further non-null rule
    goes under a new AND root. *)
Lemma combineRules_step_full (root rule : Node) :
  is_Some (left root) -> is_Some (right root) ->
  combineRules_step root (Some rule) = mkNode OPERATOR "AND" (Some root) (Some rule).
Proof.
  intros [l Hl] [r Hr]. unfold combineRules_step. now rewrite Hl, Hr.
Qed.

Lemma fold_combineRules_step_full (rest : list Node) (root : Node) :
  is_Some (left root) -> is_Some (right root) ->
  fold_left combineRules_step (Some <$> rest) root =
  fold_left (fun acc rule => mkNode OPERATOR "AND" (Some acc) (Some rule)) rest root.
Proof.
  revert root. induction rest as [|rule rest IH]; intros root Hl Hr; [reflexivity|].
  cbn [fmap list_fmap fold_left].
  rewrite combineRules_step_full by assumption.
  apply IH; simpl; eauto.
Qed.

Lemma combineRules_two_or_more (a b : Node) (rest : list Node) :
  combineRules (Some <$> a :: b :: rest) =
  fold_left (fun acc rule => mkNode OPERATOR "AND" (Some acc) (Some rule)) rest
    (mkNode OPERATOR "AND" (Some a) (Some b)).
Proof.
  unfold combineRules. cbn [fmap list_fmap fold_left].
  change (combineRules_step (combineRules_step (Node_ctor OPERATOR "AND") (Some a)) (Some b))
    with (mkNode OPERATOR "AND" (Some a) (Some b)).
  apply fold_combineRules_step_full; simpl; eauto.
Qed.

Lemma evaluates_verdict data rule :
  evaluates data rule -> evaluateAST (Some rule) data = Returns (verdict data rule).
Proof. intros [b Hb]. unfold verdict. now rewrite Hb. Qed.

Lemma evaluateAST_fold_AND data (rest : list Node) (root : Node) (b0 : bool) :
  Forall (evaluates data) rest ->
  evaluateAST (Some root) data = Returns b0 ->
  evaluateAST
    (Some (fold_left (fun acc rule => mkNode OPERATOR "AND" (Some acc) (Some rule))
             rest root)) data
  = Returns (b0 && forallb (verdict data) rest).
Proof.
  intros Hrest. revert root b0.
  induction Hrest as [|rule rest Hrule _ IH]; intros root b0 Hroot; simpl.
  - now rewrite andb_true_r.
  - rewrite (IH _ (b0 && verdict data rule)).
    + now rewrite andb_assoc.
    + rewrite evaluateAST_AND, Hroot. simpl.
      destruct b0; [now apply evaluates_verdict | reflexivity].
Qed.

(** The verdict of a combination of rules that all evaluate: with two or
    more rules it is their conjunction. *)
Lemma evaluateAST_combineRules data (rules : list Node) :
  Forall (evaluates data) rules ->
  evaluateAST (Some (combineRules (Some <$> rules))) data =
  Returns (Nat.ltb 1 (List.length rules) && forallb (verdict data) rules).
Proof.
  intros Hall.
  destruct Hall as [|a rules Ha Hall]; [reflexivity|].
  destruct Hall as [|b rules Hb Hall].
  - cbn [fmap list_fmap]. rewrite combineRules_single, evaluateAST_AND.
    rewrite (evaluates_verdict _ _ Ha). simpl. now destruct (verdict data a).
  - rewrite combineRules_two_or_more.
    assert (Hroot : evaluateAST (Some (mkNode OPERATOR "AND" (Some a) (Some b))) data
                    = Returns (verdict data a && verdict data b)).
    { rewrite evaluateAST_AND, (evaluates_verdict _ _ Ha). simpl.
      destruct (verdict data a); [now apply evaluates_verdict | reflexivity]. }
    rewrite (evaluateAST_fold_AND data rules _ _ Hall Hroot).
    simpl. now rewrite andb_assoc.
Qed.

Lemma forallb_Permutation {A} (f : A -> bool) (l l' : list A) :
  l ≡ₚ l' -> forallb f l = forallb f l'.
Proof.
  induction 1 as [|x l l' _ IH|x y l|l l' l'' _ IH1 _ IH2]; simpl.
  - reflexivity.
  - now rewrite IH.
  - now rewrite !andb_assoc, (andb_comm (f y)).
  - now rewrite IH1.
Qed.

(** C3, as stated, fails: with a fact record that lacks "age", the order of
    an unrecognised condition and "age > 30" decides between the verdict
    false and a throw of [std::out_of_range]. *)
Lemma combine_permutation_changes_outcome :
  [salary_operand; age_operand] ≡ₚ [age_operand; salary_operand] /\
  evaluateAST (Some (combineRules (Some <$> [salary_operand; age_operand]))) ∅
    = Returns false /\
  evaluateAST (Some (combineRules (Some <$> [age_operand; salary_operand]))) ∅
    = Throws std_out_of_range.
Proof. split; [apply perm_swap|]. split; reflexivity. Qed.

(** C3 (amended): for every list of rule trees and every permutation of it,
    on a fact record on which each of the rules evaluates without
    throwing, the combined tree evaluates to the same boolean for both
    orderings. *)
Theorem combine_result_permutation_invariant
    (rules rules' : list Node) (data : gmap string Z) :
  rules ≡ₚ rules' ->
  Forall (evaluates data) rules ->
  exists b : bool,
    evaluateAST (Some (combineRules (Some <$> rules))) data = Returns b /\
    evaluateAST (Some (combineRules (Some <$> rules'))) data = Returns b.
Proof.
  intros Hperm Hall.
  assert (Hall' : Forall (evaluates data) rules') by now rewrite <- Hperm.
  eexists. split; [now apply evaluateAST_combineRules|].
  rewrite evaluateAST_combineRules by assumption.
  now rewrite (Permutation_length Hperm), (forallb_Permutation _ _ _ Hperm).
Qed.

Lemma combine_result_permutation_invariant_witness :
  exists b : bool,
    evaluateAST
      (Some (combineRules (Some <$> [age_operand; createRuleAST "r"; salary_operand])))
      {[ "age" := 35 ]} = Returns b /\
    evaluateAST
      (Some (combineRules (Some <$> [salary_operand; age_operand; createRuleAST "r"])))
      {[ "age" := 35 ]} = Returns b.
Proof.
  apply (combine_result_permutation_invariant
           [age_operand; createRuleAST "r"; salary_operand]
           [salary_operand; age_operand; createRuleAST "r"]
           {[ "age" := 35 ]}).
  - symmetry. apply (Permutation_cons_append [age_operand; createRuleAST "r"]).
  - repeat constructor; eexists; reflexivity.
Defined.

(** C6, as stated, fails: for the empty list [combineRules] returns a tree,
    the root it allocated before looking at the rules. *)
Lemma combine_empty_returns_tree :
  exists t : Node, combineRules [] = t /\ t = Node_ctor OPERATOR "AND".
Proof. eexists. split; reflexivity. Qed.

(** C6 (amended): combining the empty sequence of rules signals no error;
    it returns a newly created AND operator node with no children. *)
Theorem combine_empty_is_childless_AND :
  combineRules [] = mkNode OPERATOR "AND" None None.
Proof. exact combineRules_nil. Qed.

(** C7, as stated, fails: the tree returned for the single rule
    "age > 30" is not that rule, and on the record {age: 35} the rule is
    true while the returned tree is false. *)
Lemma combine_single_differs :
  combineRules [Some age_operand] <> age_operand /\
  evaluateAST (Some age_operand) {[ "age" := 35 ]} = Returns true /\
  evaluateAST (Some (combineRules [Some age_operand])) {[ "age" := 35 ]}
    = Returns false.
Proof. split; [discriminate|]. split; reflexivity. Qed.

(** C7 (amended): combining a single-element sequence [R] returns a newly
    created AND operator node whose left child is R, unchanged. *)
Theorem combine_single_wraps_in_AND (R : Node) :
  type (combineRules [Some R]) = OPERATOR /\
  value (combineRules [Some R]) = "AND" /\
  left (combineRules [Some R]) = Some R.
Proof. rewrite combineRules_single. repeat split. Qed.

(** ** The serialization boundary *)

Lemma get_document_of_cases doc key :
  (exists d, get_document_of doc key = Returns d /\
             get_document (doc_find doc key) = Returns (proj1_sig d)) \/
  (exists e, get_document_of doc key = Throws e /\
             get_document (doc_find doc key) = Throws e).
Proof.
  unfold get_document_of.
  generalize (get_document_size doc key).
  destruct (get_document (doc_find doc key)) as [d|e]; intros Hsize.
  - left. eexists. split; reflexivity.
  - right. eexists. split; reflexivity.
Qed.

(** The body of [parseBSON], with its two recursive calls. *)
Lemma parseBSON_body (doc : document) :
  parseBSON doc =
  let* t := get_utf8 (doc_find doc "type") in
  let type := if String.eqb t "operator" then OPERATOR else OPERAND in
  let* v := get_utf8 (doc_find doc "value") in
  let node := Node_ctor type v in
  let* node :=
    if doc_find doc "left" is Some _ then
      let* d := get_document (doc_find doc "left") in
      let* l := parseBSON d in
      Returns (set_left node (Some l))
    else Returns node in
  let* node :=
    if doc_find doc "right" is Some _ then
      let* d := get_document (doc_find doc "right") in
      let* r := parseBSON d in
      Returns (set_right node (Some r))
    else Returns node in
  Returns node.
Proof.
  rewrite parseBSON_equation_1.
  destruct (get_utf8 (doc_find doc "type")) as [t|]; [|reflexivity].
  destruct (get_utf8 (doc_find doc "value")) as [v|]; [|reflexivity].
  cbn [bind].
  destruct (get_document_of_cases doc "left") as [(dl & -> & Hl) | (e & -> & Hl)];
  destruct (get_document_of_cases doc "right") as [(dr & -> & Hr) | (e' & -> & Hr)];
  destruct (doc_find doc "left") as [xl|]; destruct (doc_find doc "right") as [xr|];
    rewrite ?Hl, ?Hr; try discriminate; reflexivity.
Qed.

Lemma parseBSON_children (doc : document) :
  parseBSON doc =
  let* t := get_utf8 (doc_find doc "type") in
  let* v := get_utf8 (doc_find doc "value") in
  let* l := parse_child doc "left" in
  let* r := parse_child doc "right" in
  Returns (mkNode (if String.eqb t "operator" then OPERATOR else OPERAND) v l r).
Proof.
  rewrite parseBSON_body. unfold parse_child.
  destruct (get_utf8 (doc_find doc "type")) as [t|]; [|reflexivity].
  destruct (get_utf8 (doc_find doc "value")) as [v|]; [|reflexivity].
  cbn [bind].
  destruct (doc_find doc "left") as [xl|]; cbn [bind].
  - destruct (get_document (Some xl)) as [dl|]; [|reflexivity]. cbn [bind].
    destruct (parseBSON dl) as [l|]; [|reflexivity]. cbn [bind].
    destruct (doc_find doc "right") as [xr|]; cbn [bind]; [|reflexivity].
    destruct (get_document (Some xr)) as [dr|]; [|reflexivity]. cbn [bind].
    destruct (parseBSON dr) as [r|]; reflexivity.
  - destruct (doc_find doc "right") as [xr|]; cbn [bind]; [|reflexivity].
    destruct (get_document (Some xr)) as [dr|]; [|reflexivity]. cbn [bind].
    destruct (parseBSON dr) as [r|]; reflexivity.
Qed.

(** The elements that [toBSON] writes, in order. *)
Lemma toBSON_elements t v l r :
  toBSON (mkNode t v l r) =
  ([("type", b_utf8 (match t with OPERATOR => "operator" | OPERAND => "operand" end));
    ("value", b_utf8 v)]
   ++ (if l is Some l' then [("left", b_document (toBSON l'))] else [])
   ++ (if r is Some r' then [("right", b_document (toBSON r'))] else []))%list.
Proof. destruct l, r; reflexivity. Qed.

Lemma parse_child_toBSON_left t v l r :
  (forall n, l = Some n -> parseBSON (toBSON n) = Returns n) ->
  parse_child (toBSON (mkNode t v l r)) "left" = Returns l.
Proof.
  intros IH. rewrite toBSON_elements. unfold parse_child.
  destruct l as [l'|], r as [r'|]; cbn [app doc_find String.eqb Ascii.eqb Bool.eqb];
    try reflexivity; cbn [get_document bind]; now rewrite (IH l' eq_refl).
Qed.

Lemma parse_child_toBSON_right t v l r :
  (forall n, r = Some n -> parseBSON (toBSON n) = Returns n) ->
  parse_child (toBSON (mkNode t v l r)) "right" = Returns r.
Proof.
  intros IH. rewrite toBSON_elements. unfold parse_child.
  destruct l as [l'|], r as [r'|]; cbn [app doc_find String.eqb Ascii.eqb Bool.eqb];
    try reflexivity; cbn [get_document bind]; now rewrite (IH r' eq_refl).
Qed.

(** Decoding inverts encoding. *)
Lemma parseBSON_toBSON (T : Node) : parseBSON (toBSON T) = Returns T.
Proof.
  induction T as [t v l r IHl IHr] using Node_child_ind.
  rewrite parseBSON_children.
  rewrite (parse_child_toBSON_left t v l r IHl).
  rewrite (parse_child_toBSON_right t v l r IHr).
  rewrite toBSON_elements.
  cbn [app doc_find String.eqb Ascii.eqb Bool.eqb get_utf8 bind].
  now destruct t.
Qed.

(** C1: for every tree T, decoding the encoding of T returns a tree, the
    tree is T itself, and so it evaluates as T does against every fact
    record, the throws included. *)
Theorem round_trip (T : Node) :
  exists T' : Node,
    parseBSON (toBSON T) = Returns T' /\
    T' = T /\
    forall data, evaluateAST (Some T') data = evaluateAST (Some T) data.
Proof.
  exists T. split; [apply parseBSON_toBSON|]. split; reflexivity.
Qed.

(** C9, as stated, fails: a document of type "bogus" decodes, without any
    error, to an operand node. *)
Lemma bogus_type_decodes_to_operand :
  parseBSON [("type", b_utf8 "bogus"); ("value", b_utf8 "age > 30")]
    = Returns (mkNode OPERAND "age > 30" None None).
Proof. reflexivity. Qed.

(** C9 (amended): a document whose type key holds a string other than
    "operator" (for example "bogus") is decoded as an operand node: if its
    value and its children decode, the result is the operand node that
    carries them, and the unknown type raises no error of its own. *)
Theorem unknown_type_decodes_as_operand (doc : document) (t : string) :
  get_utf8 (doc_find doc "type") = Returns t ->
  t <> "operator" ->
  parseBSON doc =
  let* v := get_utf8 (doc_find doc "value") in
  let* l := parse_child doc "left" in
  let* r := parse_child doc "right" in
  Returns (mkNode OPERAND v l r).
Proof.
  intros Ht Hne. rewrite parseBSON_children, Ht. cbn [bind].
  apply String.eqb_neq in Hne. now rewrite Hne.
Qed.

Lemma unknown_type_decodes_as_operand_witness :
  parseBSON [("type", b_utf8 "bogus"); ("value", b_utf8 "age > 30");
             ("left", b_document (toBSON salary_operand))]
  = Returns (mkNode OPERAND "age > 30" (Some salary_operand) None).
Proof.
  rewrite (unknown_type_decodes_as_operand
             [("type", b_utf8 "bogus"); ("value", b_utf8 "age > 30");
              ("left", b_document (toBSON salary_operand))] "bogus").
  - reflexivity.
  - reflexivity.
  - discriminate.
Defined.

(** * Further properties of the evaluator *)

Lemma truth_operator a v l r :
  truth a (Some (mkNode OPERATOR v l r)) =
  if String.eqb v "AND" then truth a l && truth a r
  else if String.eqb v "OR" then truth a l || truth a r
  else false.
Proof. destruct l, r; reflexivity. Qed.

Lemma truth_operand a v l r :
  truth a (Some (mkNode OPERAND v l r)) = String.eqb v "age > 30" && a.
Proof. reflexivity. Qed.

#[local] Arguments truth : simpl never.

Lemma evaluateAST_truth_node (x : Z) (data : gmap string Z) (n : Node) :
  data !! "age" = Some x ->
  evaluateAST (Some n) data = Returns (truth (30 <? x) (Some n)).
Proof.
  intros Hage. induction n as [t v l r IHl IHr] using Node_child_ind.
  assert (Hl : evaluateAST l data = Returns (truth (30 <? x) l))
    by (destruct l as [l'|]; [exact (IHl l' eq_refl) | reflexivity]).
  assert (Hr : evaluateAST r data = Returns (truth (30 <? x) r))
    by (destruct r as [r'|]; [exact (IHr r' eq_refl) | reflexivity]).
  destruct t.
  - rewrite evaluateAST_operator, truth_operator, Hl, Hr. cbn [bind].
    destruct (String.eqb v "AND"); [now destruct (truth (30 <? x) l)|].
    destruct (String.eqb v "OR"); [now destruct (truth (30 <? x) l)|].
    reflexivity.
  - rewrite evaluateAST_operand, truth_operand. unfold at_. rewrite Hage.
    now destruct (String.eqb v "age > 30").
Qed.

(** X1: on a fact record that has "age", evaluation never throws: it
    returns the truth value of the tree read as a boolean formula in
    which "age > 30" is the only atom, every other operand and every
    absent node being false. *)
Theorem evaluateAST_truth (x : Z) (data : gmap string Z) (node : option Node) :
  data !! "age" = Some x ->
  evaluateAST node data = Returns (truth (30 <? x) node).
Proof.
  intros Hage. destruct node as [n|]; [|reflexivity].
  now apply evaluateAST_truth_node.
Qed.

Lemma evaluateAST_truth_witness :
  evaluateAST (Some (mkNode OPERATOR "OR" (Some salary_operand) (Some age_operand)))
    {[ "age" := 40; "salary" := 55000 ]} = Returns true.
Proof.
  apply (evaluateAST_truth 40 {[ "age" := 40; "salary" := 55000 ]}
           (Some (mkNode OPERATOR "OR" (Some salary_operand) (Some age_operand)))).
  reflexivity.
Defined.

Lemma truth_false_node (n : Node) : truth false (Some n) = false.
Proof.
  induction n as [t v l r IHl IHr] using Node_child_ind.
  assert (Hl : truth false l = false)
    by (destruct l as [l'|]; [exact (IHl l' eq_refl) | reflexivity]).
  assert (Hr : truth false r = false)
    by (destruct r as [r'|]; [exact (IHr r' eq_refl) | reflexivity]).
  destruct t.
  - rewrite truth_operator, Hl, Hr. now repeat case_match.
  - rewrite truth_operand. apply andb_false_r.
Qed.

(** X2: when the recorded age is at most 30, every tree evaluates to
    false, whatever its shape and operands. *)
Theorem evaluateAST_age_at_most_30 (x : Z) (data : gmap string Z)
    (node : option Node) :
  data !! "age" = Some x ->
  x <= 30 ->
  evaluateAST node data = Returns false.
Proof.
  intros Hage Hx. rewrite (evaluateAST_truth x) by assumption.
  replace (30 <? x) with false by (symmetry; apply Z.ltb_ge; exact Hx).
  destruct node as [n|]; [|reflexivity]. now rewrite truth_false_node.
Qed.

Lemma evaluateAST_age_at_most_30_witness :
  evaluateAST (Some (mkNode OPERATOR "OR" (Some age_operand) (Some salary_operand)))
    {[ "age" := 30; "salary" := 90000 ]} = Returns false.
Proof.
  apply (evaluateAST_age_at_most_30 30 {[ "age" := 30; "salary" := 90000 ]}
           (Some (mkNode OPERATOR "OR" (Some age_operand) (Some salary_operand)))).
  - reflexivity.
  - lia.
Defined.

Lemma evaluateAST_throws_out_of_range_node (data : gmap string Z) (n : Node) (e : exn) :
  evaluateAST (Some n) data = Throws e -> e = std_out_of_range.
Proof.
  induction n as [t v l r IHl IHr] using Node_child_ind.
  assert (Hl : evaluateAST l data = Throws e -> e = std_out_of_range)
    by (destruct l as [l'|]; [exact (IHl l' eq_refl) | discriminate]).
  assert (Hr : evaluateAST r data = Throws e -> e = std_out_of_range)
    by (destruct r as [r'|]; [exact (IHr r' eq_refl) | discriminate]).
  destruct t.
  - rewrite evaluateAST_operator.
    destruct (String.eqb v "AND"); [|destruct (String.eqb v "OR")];
      try discriminate;
      destruct (evaluateAST l data) as [[]|el]; cbn [bind];
      try discriminate; auto.
  - rewrite evaluateAST_operand. unfold at_.
    destruct (String.eqb v "age > 30"); [|discriminate].
    destruct (data !! "age"); cbn [bind]; [discriminate|]. now intros [= <-].
Qed.

(** X3: the only exception that leaves [evaluateAST] is
    [std::out_of_range], and it does so only for a fact record that has
    no "age". *)
Theorem evaluateAST_throws_only_without_age (data : gmap string Z)
    (node : option Node) (e : exn) :
  evaluateAST node data = Throws e ->
  e = std_out_of_range /\ data !! "age" = None.
Proof.
  intros Hthrow. split.
  - destruct node as [n|]; [|discriminate Hthrow].
    now apply (evaluateAST_throws_out_of_range_node data n).
  - destruct (data !! "age") as [x|] eqn:Hage; [|reflexivity].
    rewrite (evaluateAST_truth x) in Hthrow by assumption. discriminate Hthrow.
Qed.

Lemma evaluateAST_throws_only_without_age_witness :
  std_out_of_range = std_out_of_range /\
  ({[ "salary" := 60000 ]} : gmap string Z) !! "age" = None.
Proof.
  apply (evaluateAST_throws_only_without_age {[ "salary" := 60000 ]}
           (Some (createRuleAST "r")) std_out_of_range).
  reflexivity.
Defined.

(** X4: evaluation reads nothing of the fact record but the entry "age":
    two records with the same "age" entry (or both without one) give the
    same outcome on every tree. *)
Theorem evaluateAST_only_reads_age (data data' : gmap string Z)
    (node : option Node) :
  data !! "age" = data' !! "age" ->
  evaluateAST node data = evaluateAST node data'.
Proof.
  intros Hage. destruct node as [n|]; [|reflexivity].
  induction n as [t v l r IHl IHr] using Node_child_ind.
  assert (Hl : evaluateAST l data = evaluateAST l data')
    by (destruct l as [l'|]; [exact (IHl l' eq_refl) | reflexivity]).
  assert (Hr : evaluateAST r data = evaluateAST r data')
    by (destruct r as [r'|]; [exact (IHr r' eq_refl) | reflexivity]).
  destruct t.
  - now rewrite !evaluateAST_operator, Hl, Hr.
  - rewrite !evaluateAST_operand. unfold at_. now rewrite Hage.
Qed.

Lemma evaluateAST_only_reads_age_witness :
  evaluateAST (Some (createRuleAST "r")) {[ "age" := 35; "salary" := 60000 ]} =
  evaluateAST (Some (createRuleAST "r")) {[ "age" := 35 ]}.
Proof.
  apply (evaluateAST_only_reads_age {[ "age" := 35; "salary" := 60000 ]}
           {[ "age" := 35 ]} (Some (createRuleAST "r"))).
  reflexivity.
Defined.

(** X5: whatever rule string it is given, [createRuleAST] returns a tree
    that never evaluates to true: it is false on every record that has
    "age" and throws [std::out_of_range] on every other record. *)
Theorem createRuleAST_never_true (rule : string) (data : gmap string Z) :
  evaluateAST (Some (createRuleAST rule)) data =
  match data !! "age" with
  | Some _ => Returns false
  | None => Throws std_out_of_range
  end.
Proof.
  unfold createRuleAST, set_left, set_right, Node_ctor. cbn [type value left right].
  rewrite evaluateAST_AND, !evaluateAST_operand. unfold at_.
  destruct (data !! "age") as [x|]; [|reflexivity].
  cbn. now destruct (30 <? x).
Qed.

(** * Further properties of the rule combinator *)

Lemma evaluate_in_order_app data (rules rules' : list Node) :
  evaluate_in_order data (rules ++ rules') =
  let* b := evaluate_in_order data rules in
  if b then evaluate_in_order data rules' else Returns false.
Proof.
  induction rules as [|rule rules IH]; [reflexivity|].
  cbn [app evaluate_in_order].
  destruct (evaluateAST (Some rule) data) as [[]|]; cbn [bind]; auto.
Qed.

Lemma evaluate_in_order_single data (rule : Node) :
  evaluate_in_order data [rule] = evaluateAST (Some rule) data.
Proof.
  cbn [evaluate_in_order].
  now destruct (evaluateAST (Some rule) data) as [[]|].
Qed.

Lemma evaluateAST_chain_in_order data (rest done : list Node) (root : Node) :
  evaluateAST (Some root) data = evaluate_in_order data done ->
  evaluateAST
    (Some (fold_left (fun acc rule => mkNode OPERATOR "AND" (Some acc) (Some rule))
             rest root)) data
  = evaluate_in_order data (done ++ rest).
Proof.
  revert done root. induction rest as [|rule rest IH]; intros done root Hroot.
  - now rewrite app_nil_r.
  - cbn [fold_left].
    replace (done ++ rule :: rest)%list with ((done ++ [rule]) ++ rest)%list
      by now rewrite <- app_assoc.
    apply IH.
    rewrite evaluateAST_AND, Hroot, evaluate_in_order_app, evaluate_in_order_single.
    reflexivity.
Qed.

(** X6: the tree that [combineRules] builds from two or more rules
    evaluates them in list order and stops at the first rule that is
    false or that throws; it is true exactly when every rule is true. *)
Theorem combineRules_evaluates_in_order (a b : Node) (rest : list Node)
    (data : gmap string Z) :
  evaluateAST (Some (combineRules (Some <$> a :: b :: rest))) data =
  evaluate_in_order data (a :: b :: rest).
Proof.
  rewrite combineRules_two_or_more.
  apply (evaluateAST_chain_in_order data rest [a; b]).
  rewrite evaluateAST_AND. cbn [evaluate_in_order].
  destruct (evaluateAST (Some a) data) as [[]|]; cbn [bind]; [|reflexivity..].
  now destruct (evaluateAST (Some b) data) as [[]|].
Qed.

(** X7: rules can be combined step by step: adding one rule to a
    combination of two or more rules gives the tree that combining all
    of them at once gives. *)
Theorem combineRules_incremental (a b : Node) (rest : list Node) (rule : Node) :
  combineRules [Some (combineRules (Some <$> a :: b :: rest)); Some rule] =
  combineRules (Some <$> ((a :: b :: rest) ++ [rule])%list).
Proof.
  change ((a :: b :: rest) ++ [rule])%list with (a :: b :: (rest ++ [rule]))%list.
  rewrite !combineRules_two_or_more, fold_left_app. reflexivity.
Qed.

Lemma non_null_app (rules rules' : list (option Node)) :
  non_null (rules ++ rules') = (non_null rules ++ non_null rules')%list.
Proof. apply omap_app. Qed.

(** While the loop of [combineRules] runs over a vector with null
    pointers, its root is the root for the vector without them, or that
    root under a new AND node whose right child is still null. *)
Lemma combineRules_step_nulls (rules : list (option Node)) (s s' : Node) :
  s = s' \/
  (is_Some (left s') /\ is_Some (right s') /\
   s = mkNode OPERATOR "AND" (Some s') None) ->
  fold_left combineRules_step rules s =
    fold_left combineRules_step (Some <$> non_null rules) s' \/
  (is_Some (left (fold_left combineRules_step (Some <$> non_null rules) s')) /\
   is_Some (right (fold_left combineRules_step (Some <$> non_null rules) s')) /\
   fold_left combineRules_step rules s =
     mkNode OPERATOR "AND"
       (Some (fold_left combineRules_step (Some <$> non_null rules) s')) None).
Proof.
  revert s s'. induction rules as [|[rule|] rules IH]; intros s s' Hs.
  - exact Hs.
  - change (non_null (Some rule :: rules)) with (rule :: non_null rules).
    cbn [fold_left fmap list_fmap]. apply IH. left.
    destruct Hs as [-> | (Hl & Hr & ->)]; [reflexivity|].
    rewrite (combineRules_step_full s') by assumption. reflexivity.
  - change (non_null (None :: rules)) with (non_null rules).
    cbn [fold_left]. apply IH.
    destruct Hs as [-> | (Hl & Hr & ->)].
    + destruct s' as [t v [l|] [r|]]; cbn; eauto 6.
    + right. auto.
Qed.

(** X8: a null pointer in the vector of rules is skipped whenever a rule
    comes after it: for a vector that ends with a rule, [combineRules]
    returns the tree it returns for the vector without its null
    pointers. *)
Theorem combineRules_skips_null (rules : list (option Node)) (rule : Node) :
  combineRules (rules ++ [Some rule]) =
  combineRules (Some <$> non_null (rules ++ [Some rule])).
Proof.
  unfold combineRules.
  rewrite non_null_app, fmap_app, !fold_left_app.
  change (Some <$> non_null [Some rule]) with [Some rule].
  cbn [fold_left].
  destruct (combineRules_step_nulls rules (Node_ctor OPERATOR "AND")
              (Node_ctor OPERATOR "AND") (or_introl eq_refl))
    as [-> | (Hl & Hr & ->)]; [reflexivity|].
  rewrite (combineRules_step_full (fold_left _ _ _)) by assumption. reflexivity.
Qed.

Lemma fold_combineRules_step_AND (rules : list (option Node)) (s : Node) :
  type s = OPERATOR /\ value s = "AND" ->
  type (fold_left combineRules_step rules s) = OPERATOR /\
  value (fold_left combineRules_step rules s) = "AND".
Proof.
  revert s. induction rules as [|rule rules IH]; intros s Hs; [exact Hs|].
  cbn [fold_left]. apply IH.
  destruct s as [t v [l|] [r|]]; cbn in *; auto.
Qed.

Lemma fold_combineRules_step_all_null (rules : list (option Node)) :
  non_null rules = [] ->
  fold_left combineRules_step rules (Node_ctor OPERATOR "AND") =
  Node_ctor OPERATOR "AND".
Proof.
  induction rules as [|[rule|] rules IH]; [reflexivity|discriminate|].
  intros Hnull. cbn [fold_left]. now apply IH.
Qed.

Lemma AND_without_right_never_true l data :
  evaluateAST (Some (mkNode OPERATOR "AND" l None)) data <> Returns true.
Proof.
  rewrite evaluateAST_AND.
  destruct (evaluateAST l data) as [[]|]; cbn; discriminate.
Qed.

Lemma combineRules_step_null_never_true (s : Node) data :
  type s = OPERATOR /\ value s = "AND" ->
  evaluateAST (Some (combineRules_step s None)) data <> Returns true.
Proof.
  destruct s as [t v [l|] [r|]]; cbn [type value]; intros [-> ->];
    unfold combineRules_step, set_left, set_right, Node_ctor;
    cbn [type value left right];
    try apply AND_without_right_never_true.
  all: rewrite evaluateAST_AND; cbn; discriminate.
Qed.

(** X9: a combined tree can evaluate to true only if the vector holds at
    least two rules and ends with a rule: the combination of no rule or
    of a single rule, and of any vector that ends with a null pointer,
    is never true. *)
Theorem combineRules_true_needs_two_rules (rules : list (option Node))
    (data : gmap string Z) :
  evaluateAST (Some (combineRules rules)) data = Returns true ->
  (2 <= List.length (non_null rules))%nat /\
  exists init rule, rules = (init ++ [Some rule])%list.
Proof.
  destruct rules as [|last init _] using rev_ind; [discriminate|].
  unfold combineRules. rewrite fold_left_app. cbn [fold_left].
  destruct last as [rule|].
  - intros Htrue. split; [|eauto].
    rewrite non_null_app, length_app. cbn.
    destruct (non_null init) as [|? ?] eqn:Hinit; [|cbn; lia].
    rewrite (fold_combineRules_step_all_null init Hinit) in Htrue.
    now apply AND_without_right_never_true in Htrue.
  - intros Htrue.
    apply combineRules_step_null_never_true in Htrue; [contradiction|].
    now apply fold_combineRules_step_AND.
Qed.

Lemma combineRules_true_needs_two_rules_witness :
  (2 <= List.length (non_null [Some age_operand; None; Some age_operand]))%nat /\
  exists init rule,
    [Some age_operand; None; Some age_operand] = (init ++ [Some rule])%list.
Proof.
  apply (combineRules_true_needs_two_rules
           [Some age_operand; None; Some age_operand] {[ "age" := 35 ]}).
  reflexivity.
Defined.

(** * Further properties of the serialization boundary *)

(** X10: distinct trees have distinct encodings. *)
Theorem toBSON_injective (T1 T2 : Node) :
  toBSON T1 = toBSON T2 -> T1 = T2.
Proof.
  intros Heq.
  assert (H : parseBSON (toBSON T1) = parseBSON (toBSON T2)) by now rewrite Heq.
  rewrite !parseBSON_toBSON in H. now injection H.
Qed.

Lemma toBSON_injective_witness : createRuleAST "r1" = createRuleAST "r2".
Proof.
  apply (toBSON_injective (createRuleAST "r1") (createRuleAST "r2")).
  reflexivity.
Defined.

Lemma parse_child_cases (doc : document) (key : string) :
  match doc_find doc key with
  | None => parse_child doc key = Returns None
  | Some (b_document d) =>
      parse_child doc key = let* n := parseBSON d in Returns (Some n)
  | Some _ => parse_child doc key = Throws bsoncxx_exception
  end.
Proof.
  unfold parse_child. destruct (doc_find doc key) as [[]|]; reflexivity.
Qed.

Lemma parseBSON_decodable_size (k : nat) (doc : document) :
  (doc_size doc < k)%nat ->
  (decodable doc <-> exists n, parseBSON doc = Returns n) /\
  (forall e, parseBSON doc = Throws e -> e = bsoncxx_exception).
Proof.
  revert doc. induction k as [|k IH]; intros doc Hk; [lia|].
  assert (Hchild : forall key,
    ((doc_find doc key = None \/
      exists d, doc_find doc key = Some (b_document d) /\ decodable d)
     <-> exists c, parse_child doc key = Returns c) /\
    (forall e, parse_child doc key = Throws e -> e = bsoncxx_exception)).
  { intros key. pose proof (parse_child_cases doc key) as Hcases.
    destruct (doc_find doc key) as [[s|d|i|b|]|] eqn:Hfind; rewrite Hcases;
      try solve [split; [split; [intros [[=] | (d' & [=] & _)] | intros [c [=]]]
                       | now intros e [= <-]]];
      try solve [split; [split; [eauto | auto] | discriminate]].
    assert (Hd : (doc_size d < k)%nat)
      by (apply doc_find_size in Hfind; lia).
    destruct (IH d Hd) as [Hiff Hexn].
    destruct (parseBSON d) as [n|e] eqn:Hparse; cbn [bind].
    - split; [split|]; [eauto | intros _; right; exists d; split; [done|] | done].
      apply Hiff. eauto.
    - split; [split|].
      + intros [[=] | (d' & [= <-] & Hdec)].
        apply Hiff in Hdec as [n [=]].
      + intros [c [=]].
      + intros e' [= <-]. now apply Hexn. }
  destruct (Hchild "left") as [Hleft Hleft_exn].
  destruct (Hchild "right") as [Hright Hright_exn].
  rewrite parseBSON_children.
  destruct (doc_find doc "type") as [[t| | | |]|] eqn:Htype; cbn [get_utf8 bind];
    try solve [split; [split; [inversion 1; congruence | intros [n [=]]]
                     | now intros e [= <-]]].
  destruct (doc_find doc "value") as [[v| | | |]|] eqn:Hvalue; cbn [get_utf8 bind];
    try solve [split; [split; [inversion 1; congruence | intros [n [=]]]
                     | now intros e [= <-]]].
  destruct (parse_child doc "left") as [l|el] eqn:Hl; cbn [bind].
  - destruct (parse_child doc "right") as [r|er] eqn:Hr; cbn [bind].
    + split; [split; [eauto|] | discriminate].
      intros _. apply (decodable_node doc t v); try done.
      * apply Hleft. eauto.
      * apply Hright. eauto.
    + split; [split|].
      * inversion 1 as [? ? ? _ _ _ Hr']. apply Hright in Hr' as [c [=]].
      * intros [n [=]].
      * intros e [= <-]. now apply Hright_exn.
  - split; [split|].
    + inversion 1 as [? ? ? _ _ Hl' _]. apply Hleft in Hl' as [c [=]].
    + intros [n [=]].
    + intros e [= <-]. now apply Hleft_exn.
Qed.

(** X11: [parseBSON] returns a tree exactly for the documents whose
    "type" and "value" are strings and whose "left" and "right", where
    present, are embedded documents of the same kind; for every other
    document it throws [bsoncxx::exception]. *)
Theorem parseBSON_decodable (doc : document) :
  (decodable doc -> exists n, parseBSON doc = Returns n) /\
  (~ decodable doc -> parseBSON doc = Throws bsoncxx_exception).
Proof.
  destruct (parseBSON_decodable_size (S (doc_size doc)) doc (Nat.lt_succ_diag_r _))
    as [Hiff Hexn].
  split; [apply Hiff|].
  intros Hnot. destruct (parseBSON doc) as [n|e] eqn:Hparse.
  - destruct Hnot. apply Hiff. eauto.
  - now rewrite (Hexn e eq_refl).
Qed.

Lemma parseBSON_decodable_witness :
  parseBSON [("value", b_utf8 "age > 30"); ("type", b_int32 1)]
    = Throws bsoncxx_exception.
Proof.
  apply (proj2 (parseBSON_decodable
                  [("value", b_utf8 "age > 30"); ("type", b_int32 1)])).
  inversion 1 as [? ? ? Htype]. discriminate Htype.
Defined.

(** X12: [parseBSON] reads only the first elements stored under "type",
    "value", "left" and "right": documents that agree on these four
    lookups decode alike, whatever else they hold and in whatever
    order. *)
Theorem parseBSON_only_reads_four_keys (doc doc' : document) :
  doc_find doc "type" = doc_find doc' "type" ->
  doc_find doc "value" = doc_find doc' "value" ->
  doc_find doc "left" = doc_find doc' "left" ->
  doc_find doc "right" = doc_find doc' "right" ->
  parseBSON doc = parseBSON doc'.
Proof.
  intros Htype Hvalue Hleft Hright.
  rewrite !parseBSON_children. unfold parse_child.
  now rewrite Htype, Hvalue, Hleft, Hright.
Qed.

Lemma parseBSON_only_reads_four_keys_witness :
  parseBSON [("_id", b_int32 7); ("right", b_document (toBSON salary_operand));
             ("value", b_utf8 "OR"); ("type", b_utf8 "operator");
             ("left", b_document (toBSON age_operand)); ("type", b_null)]
  = parseBSON (toBSON (mkNode OPERATOR "OR" (Some age_operand) (Some salary_operand))).
Proof.
  apply (parseBSON_only_reads_four_keys
           [("_id", b_int32 7); ("right", b_document (toBSON salary_operand));
            ("value", b_utf8 "OR"); ("type", b_utf8 "operator");
            ("left", b_document (toBSON age_operand)); ("type", b_null)]
           (toBSON (mkNode OPERATOR "OR" (Some age_operand) (Some salary_operand))));
    reflexivity.
Defined.

(** * Properties of the rule store *)













